(** * Beast: compile-time concept checks of [beast/asio/type_check.h]

    The header decides, for a candidate type [T], whether [T] has the shape
    of a buffer sequence, of a stream, of a stream buffer or of a completion
    handler.  Every check is a class template whose [value] member is a
    conjunction of detection probes; a probe asks the compiler whether a
    type expression over [T] is well-formed and, if so, what it denotes.

    The embedding keeps that structure.  C++ types are a syntax [ty]; what
    the compiler knows about the declarations in scope (the standard type
    traits, nested-type lookup, the type of a member call) is an
    [Environment]; a probe is a computation in [option], [None] standing for
    a substitution failure; and every check is a total boolean function of
    the environment and the candidate type. *)

From stdpp Require Import base option list strings.

Local Open Scope string_scope.

(** ** C++ types *)

(** The iterator category tags of [<iterator>]. *)
Inductive iterator_tag : Type :=
  | input_iterator_tag
  | output_iterator_tag
  | forward_iterator_tag
  | bidirectional_iterator_tag
  | random_access_iterator_tag.

(** The types the header can be asked about.  Class types are referred to by
    their qualified name; their declarations live in the [Environment].
    Array and function types are not needed by any check and are left out. *)
Inductive ty : Type :=
  | Tvoid
  | Tbool
  | Tchar
  | Tint
  | Tlong
  | Tsize_t
  | Tdouble
  | Tpointer (t : ty)
  | Tconst (t : ty)
  | Tlref (t : ty)
  | Trref (t : ty)
  | Ttag (c : iterator_tag)
  | Tclass (name : string).

(** An argument of a probed call: [std::declval<A>()] or an integer literal
    (the header writes [prepare(1)], [commit(1)], [consume(1)]). *)
Inductive expr : Type :=
  | declval (A : ty)
  | literal (n : Z).

(** A call signature [R(A...)], the second argument of [is_Handler]. *)
Record signature : Type := Signature {
  sig_result : ty;
  sig_args : list ty
}.

#[global] Instance iterator_tag_eq_dec : EqDecision iterator_tag.
Proof. solve_decision. Defined.

#[global] Instance ty_eq_dec : EqDecision ty.
Proof. solve_decision. Defined.

#[global] Instance expr_eq_dec : EqDecision expr.
Proof. solve_decision. Defined.

#[global] Instance signature_eq_dec : EqDecision signature.
Proof. solve_decision. Defined.

(** [std::is_same<A, B>::value]: identity of types. *)
Definition is_same (A B : ty) : bool := bool_decide (A = B).

(** Derivation among the standard tags: [tag_base_of b d] holds when [b] is
    [d] or a base class of [d].  [forward_iterator_tag] derives from
    [input_iterator_tag], [bidirectional_iterator_tag] from
    [forward_iterator_tag], [random_access_iterator_tag] from
    [bidirectional_iterator_tag]; [output_iterator_tag] stands alone. *)
Definition tag_base_of (b d : iterator_tag) : bool :=
  match b, d with
  | input_iterator_tag,
    (input_iterator_tag | forward_iterator_tag
     | bidirectional_iterator_tag | random_access_iterator_tag) => true
  | output_iterator_tag, output_iterator_tag => true
  | forward_iterator_tag,
    (forward_iterator_tag | bidirectional_iterator_tag
     | random_access_iterator_tag) => true
  | bidirectional_iterator_tag,
    (bidirectional_iterator_tag | random_access_iterator_tag) => true
  | random_access_iterator_tag, random_access_iterator_tag => true
  | _, _ => false
  end.

(** Scalar types in the sense of [std::is_scalar], restricted to [ty]:
    arithmetic types, pointers, and their const-qualified versions. *)
Fixpoint is_scalar (T : ty) : bool :=
  match T with
  | Tbool | Tchar | Tint | Tlong | Tsize_t | Tdouble => true
  | Tpointer _ => true
  | Tconst t => is_scalar t
  | _ => false
  end.

(** [std::remove_reference_t], [std::remove_cv_t] and [std::decay_t]
    (without arrays and functions, decaying strips the reference and then
    the top-level qualifier). *)
Definition remove_reference (T : ty) : ty :=
  match T with
  | Tlref t | Trref t => t
  | _ => T
  end.

Fixpoint remove_cv (T : ty) : ty :=
  match T with
  | Tconst t => remove_cv t
  | _ => T
  end.

Definition decay_t (T : ty) : ty := remove_cv (remove_reference T).

(** Types that are neither references nor const-qualified, and the forms
    under which such a type [U] reaches a template parameter: [U],
    [U const], and an lvalue or rvalue reference to either. *)
Definition unqualified (U : ty) : bool :=
  match U with
  | Tconst _ | Tlref _ | Trref _ => false
  | _ => true
  end.

Definition qualified_forms (U : ty) : list ty :=
  [U; Tconst U; Tlref U; Tlref (Tconst U); Trref U; Trref (Tconst U)].

(** [std::true_type] and [std::false_type]. *)
Definition true_type : ty := Tclass "std::true_type".
Definition false_type : ty := Tclass "std::false_type".

(** ** What the compiler knows

    The judgments the header delegates to the language and to headers other
    than itself.  They are functions of the declarations in scope, so the
    checks are stated for an arbitrary environment.

    - [is_copy_constructible], [is_destructible], [is_convertible] and
      [is_base_of] are the [<type_traits>] predicates;
    - [nested_type U n] is [typename U::n];
    - [iterator_category It] is
      [typename std::iterator_traits<It>::iterator_category];
    - [member_call U f args] is
      [decltype(std::declval<U>().f(args...))];
    - [invoke C args] is [decltype(std::declval<C>()(args...))];
    - [comma_true_type R] is [decltype(e, std::true_type{})] for an
      expression [e] with [decltype(e)] equal to [R].  The comma is looked
      up like any operator: it is the built-in one, and the type is
      [std::true_type], unless an [operator,] is declared for [R] and
      [std::true_type]; then the type is what that operator returns, and
      there is none when the operator is deleted or cannot be called;
    - [value_member X] is the constant [X::value] read as a [bool], when
      [X] has such a member.

    Some facts of the language are recorded with them: the standard tags
    derive from one another as [<iterator>] declares, a scalar type has
    neither nested types nor member functions, no [operator,] can take a
    [void] operand, and [std::true_type] and [std::false_type] carry
    [true] and [false]. *)
Class Environment : Type := {
  is_copy_constructible : ty → bool;
  is_destructible : ty → bool;
  is_convertible : ty → ty → bool;
  is_base_of : ty → ty → bool;
  nested_type : ty → string → option ty;
  iterator_category : ty → option ty;
  member_call : ty → string → list expr → option ty;
  invoke : ty → list expr → option ty;
  comma_true_type : ty → option ty;
  value_member : ty → option bool;
  is_base_of_tag : ∀ b d, is_base_of (Ttag b) (Ttag d) = tag_base_of b d;
  nested_type_scalar : ∀ T n, is_scalar T = true → nested_type T n = None;
  member_call_scalar :
    ∀ T f args, is_scalar T = true → member_call T f args = None;
  comma_true_type_void : comma_true_type Tvoid = Some true_type;
  value_member_true_type : value_member true_type = Some true;
  value_member_false_type : value_member false_type = Some false
}.

(** Modelled from the spec: [is_call_possible] is declared in
    [beast/is_call_possible.h], a header the checks include but which is
    not part of this file.  The specification asks that the value be
    invocable with the declared signature, any return value being
    discarded: [is_call_possible<C, R(A...)>] holds when a [C] can be
    called with arguments of types [A...], whatever the call returns. *)
Definition is_call_possible `{Environment}
    (C : ty) (Sig : signature) : bool :=
  bool_decide (is_Some (invoke C (declval <$> sig_args Sig))).

(** ** The detection idiom

    Every probe of the header is a pair of overloads
    [[
      template<class U, class R = ...> static R check(int);
      template<class>                  static std::false_type check(...);
      using type = decltype(check<T>(0));
    ]]
    When the default argument [R] is well-formed the first overload is the
    better match and [type] is [R]; when substitution fails only the second
    is viable and [type] is [std::false_type].  A probe is therefore an
    [option bool], the [value] of [R] when [R] exists, and [decltype_check]
    is the [value] of [type]. *)
Definition decltype_check (R : option bool) : bool := default false R.

(** The same selection when the probe is kept as a type: [decltype_type] is
    [type] itself, [R] or [std::false_type]. *)
Definition decltype_type (R : option ty) : ty := default false_type R.

(** Modelled from the spec: [std::void_t] is supplied by
    [beast/cxx17/type_traits.h], which is not part of this file.  Following
    the probe primitive of the specification, [void_t<Ts...>] can be formed,
    and is [void], exactly when every argument is a well-formed type;
    nothing else about the arguments is looked at.  An argument is given as
    the [option] of the [value] it would carry. *)
Definition void_t (Ts : list (option bool)) : option unit :=
  if forallb (λ t : option bool, bool_decide (is_Some t)) Ts
  then Some ()
  else None.

(** ** Types that meet the requirements, for use with [declval] only *)

Module concept.

Definition const_buffer : ty := Tclass "boost::asio::const_buffer".
Definition mutable_buffer : ty := Tclass "boost::asio::mutable_buffer".
Definition io_service : ty := Tclass "boost::asio::io_service".
Definition error_code : ty := Tclass "boost::system::error_code".

Definition ConstBufferSequence : ty :=
    Tclass "beast::concept::BufferSequence<boost::asio::const_buffer>".
Definition MutableBufferSequence : ty :=
    Tclass "beast::concept::BufferSequence<boost::asio::mutable_buffer>".
Definition StreamHandler : ty := Tclass "beast::concept::StreamHandler".
Definition ReadHandler : ty := StreamHandler.
Definition WriteHandler : ty := StreamHandler.

End concept.

(** ** The checks *)

(** [is_BufferSequence<T, BufferType>]. *)
Module is_BufferSequence.
Section checks.
Context `{Environment} (T BufferType : ty).

Definition check1 : option bool :=
    value_type ← nested_type T "value_type";
    Some (is_convertible value_type BufferType).
Definition type1 : bool := decltype_check check1.

Definition check2 : option bool :=
    const_iterator ← nested_type T "const_iterator";
    category ← iterator_category const_iterator;
    Some (is_base_of (Ttag forward_iterator_tag) category).
Definition type2 : bool := decltype_check check2.

Definition check3 : option bool :=
    b ← member_call T "begin" [];
    const_iterator ← nested_type T "const_iterator";
    Some (is_convertible b const_iterator).
Definition type3 : bool := decltype_check check3.

Definition check4 : option bool :=
    e ← member_call T "end" [];
    const_iterator ← nested_type T "const_iterator";
    Some (is_convertible e const_iterator).
Definition type4 : bool := decltype_check check4.

Definition value : bool :=
    is_copy_constructible T &&
    is_destructible T &&
    type1 && type2 &&
    type3 && type4.
End checks.
End is_BufferSequence.

Definition is_ConstBufferSequence `{Environment} (T : ty) : bool :=
  is_BufferSequence.value T concept.const_buffer.

Definition is_MutableBufferSequence `{Environment} (C : ty) : bool :=
  is_BufferSequence.value C concept.mutable_buffer.

(** [has_get_io_service<T>]. *)
Module has_get_io_service.
Section checks.
Context `{Environment} (T : ty).

Definition check : option bool :=
    r ← member_call T "get_io_service" [];
    Some (is_same r (Tlref concept.io_service)).
Definition type : bool := decltype_check check.

Definition value : bool := type.
End checks.
End has_get_io_service.

(** [is_AsyncReadStream<T>].  The probed type is
    [decltype(call, std::true_type{})], so [type] is the type of that comma
    expression when call and comma are well-formed, and [std::false_type]
    otherwise.  [value] reads [type::value]; when [type] has no such member
    the class cannot be instantiated ([instantiable] is false) and [value]
    stands for nothing. *)
Module is_AsyncReadStream.
Section checks.
Context `{Environment} (T : ty).

Definition check : option ty :=
  R ← member_call T "async_read_some"
        [declval concept.MutableBufferSequence;
         declval concept.ReadHandler];
  comma_true_type R.
Definition type : ty := decltype_type check.

Definition instantiable : bool := bool_decide (is_Some (value_member type)).

Definition value : bool :=
  has_get_io_service.value T && default false (value_member type).
End checks.
End is_AsyncReadStream.

(** [is_AsyncWriteStream<T>]. *)
Module is_AsyncWriteStream.
Section checks.
Context `{Environment} (T : ty).

Definition check : option ty :=
  R ← member_call T "async_write_some"
        [declval concept.ConstBufferSequence;
         declval concept.WriteHandler];
  comma_true_type R.
Definition type : ty := decltype_type check.

Definition instantiable : bool := bool_decide (is_Some (value_member type)).

Definition value : bool :=
  has_get_io_service.value T && default false (value_member type).
End checks.
End is_AsyncWriteStream.

(** [is_SyncReadStream<T>]. *)
Module is_SyncReadStream.
Section checks.
Context `{Environment} (T : ty).

Definition error_code : ty := concept.error_code.

Definition check1 : option bool :=
    r ← member_call T "read_some"
          [declval concept.MutableBufferSequence];
    Some (is_same r Tsize_t).
Definition type1 : bool := decltype_check check1.

Definition check2 : option bool :=
    r ← member_call T "read_some"
          [declval concept.MutableBufferSequence;
           declval (Tlref error_code)];
    Some (is_same r Tsize_t).
Definition type2 : bool := decltype_check check2.

Definition value : bool :=
    type1 && type2.
End checks.
End is_SyncReadStream.

(** [is_SyncWriteStream<T>]. *)
Module is_SyncWriteStream.
Section checks.
Context `{Environment} (T : ty).

Definition error_code : ty := concept.error_code.

Definition check1 : option bool :=
    r ← member_call T "write_some"
          [declval concept.ConstBufferSequence];
    Some (is_same r Tsize_t).
Definition type1 : bool := decltype_check check1.

Definition check2 : option bool :=
    r ← member_call T "write_some"
          [declval concept.ConstBufferSequence;
           declval (Tlref error_code)];
    Some (is_same r Tsize_t).
Definition type2 : bool := decltype_check check2.

Definition value : bool :=
    type1 && type2.
End checks.
End is_SyncWriteStream.

(** [is_Stream<T>]. *)
Module is_Stream.
Section checks.
Context `{Environment} (T : ty).

Definition value : bool :=
    is_AsyncReadStream.value T &&
    is_AsyncWriteStream.value T &&
    is_SyncReadStream.value T &&
    is_SyncWriteStream.value T.
End checks.
End is_Stream.

(** [is_Streambuf<T>]: the primary template is [std::false_type]; the
    partial specialization, [std::true_type], is chosen when its
    [std::void_t<...>] argument can be formed.  The five arguments of
    [void_t] are, in order,
    - [std::integral_constant<bool, is_MutableBufferSequence<P>::value>]
      for [P] the type of [prepare(1)],
    - [std::integral_constant<bool, is_ConstBufferSequence<D>::value>]
      for [D] the type of [data()],
    - [decltype(commit(1), std::true_type{})],
    - [decltype(consume(1), std::true_type{})], each the type of a comma
      expression, which need not be [std::true_type],
    - [std::is_same<S, std::size_t>] for [S] the type of [size()]. *)
Module is_Streambuf.
Section checks.
Context `{Environment} (T : ty).

Definition prepare_arg : option bool :=
    P ← member_call T "prepare" [literal 1];
    Some (is_MutableBufferSequence P).

Definition data_arg : option bool :=
    D ← member_call T "data" [];
    Some (is_ConstBufferSequence D).

Definition commit_arg : option bool :=
    R ← member_call T "commit" [literal 1];
    X ← comma_true_type R;
    Some (default false (value_member X)).

Definition consume_arg : option bool :=
    R ← member_call T "consume" [literal 1];
    X ← comma_true_type R;
    Some (default false (value_member X)).

Definition size_arg : option bool :=
    R ← member_call T "size" [];
    Some (is_same R Tsize_t).

Definition specialization : option unit :=
    void_t [prepare_arg; data_arg; commit_arg; consume_arg; size_arg].

Definition value : bool :=
    match specialization with
    | Some _ => true
    | None => false
    end.
End checks.
End is_Streambuf.

(** [is_Handler<T, Signature>]. *)
Definition is_Handler `{Environment} (T : ty) (Sig : signature) : bool :=
  is_copy_constructible (decay_t T) &&
  is_call_possible T Sig.

(** ** The growable-buffer contract as the specification words it

    "True iff T exposes a prepare(n) whose result satisfies the mutable
    buffer sequence check, a data() whose result satisfies the const buffer
    sequence check, a commit(n) and a consume(n) that are merely
    well-formed, and a size() whose result type is exactly the unsigned
    byte-count type."  Kept apart from [is_Streambuf.value], which is what
    the header computes. *)
Definition growable_buffer_contract `{Environment} (T : ty) : bool :=
  match member_call T "prepare" [literal 1] with
  | Some P => is_MutableBufferSequence P
  | None => false
  end &&
  match member_call T "data" [] with
  | Some D => is_ConstBufferSequence D
  | None => false
  end &&
  bool_decide (is_Some (member_call T "commit" [literal 1])) &&
  bool_decide (is_Some (member_call T "consume" [literal 1])) &&
  match member_call T "size" [] with
  | Some R => is_same R Tsize_t
  | None => false
  end.

(** ** An environment built from class declarations

    To run the checks, an [Environment] is computed from a table of class
    declarations.  A declaration lists what the probes can observe of the
    class: whether it can be copied and destroyed, its public bases, its
    nested type names, the member calls that are well-formed on an object
    of the class together with their types, the types it converts to, and
    the signatures it can be called with.  The [operator,] overloads that
    take [std::true_type] on the right are listed apart, by the type of
    their left operand: [Some X] for an operator returning [X], [None] for
    a deleted one. *)
Record class_decl : Type := ClassDecl {
  copy_constructible : bool;
  destructible : bool;
  bases : list string;
  typedefs : list (string * ty);
  calls : list (string * list expr * ty);
  converts_to : list ty;
  callable_as : list signature
}.

(** First binding of a key in an association list. *)
Fixpoint assoc {K V : Type} `{EqDecision K}
    (k : K) (l : list (K * V)) : option V :=
  match l with
  | [] => None
  | (k', v) :: l' => if decide (k = k') then Some v else assoc k l'
  end.

Section declared.
Variable Γ : list (string * class_decl).
Variable Ω : list (ty * option ty).

Definition class_of (T : ty) : option class_decl :=
  match T with
  | Tclass c => assoc c Γ
  | _ => None
  end.

Definition decl_is_copy_constructible (T : ty) : bool :=
  match T with
  | Tlref _ => true
  | Trref _ => false
  | _ =>
    match remove_cv T with
    | Tvoid => false
    | Tclass c => from_option copy_constructible false (assoc c Γ)
    | _ => true
    end
  end.

Definition decl_is_destructible (T : ty) : bool :=
  match T with
  | Tlref _ | Trref _ => true
  | _ =>
    match remove_cv T with
    | Tvoid => false
    | Tclass c => from_option destructible false (assoc c Γ)
    | _ => true
    end
  end.

Definition decl_is_base_of (B D : ty) : bool :=
  match B, D with
  | Ttag b, Ttag d => tag_base_of b d
  | Tclass b, Tclass d =>
    from_option (λ cd, bool_decide (b = d) || bool_decide (b ∈ bases cd))
      false (assoc d Γ)
  | _, _ => false
  end.

(** Conversions of the table: a copyable type to itself, a class to the
    types it declares a conversion to, and a reference to a derived class
    to a reference to its base. *)
Definition decl_is_convertible (From To : ty) : bool :=
  (is_same From To && decl_is_copy_constructible From)
  || from_option (λ cd, bool_decide (To ∈ converts_to cd))
       false (class_of (decay_t From))
  || match From, To with
     | Tlref D, Tlref B => decl_is_base_of B D
     | _, _ => false
     end.

Definition decl_nested_type (U : ty) (n : string) : option ty :=
  cd ← class_of (remove_cv U); assoc n (typedefs cd).

Definition decl_iterator_category (It : ty) : option ty :=
  match It with
  | Tpointer _ => Some (Ttag random_access_iterator_tag)
  | _ => decl_nested_type It "iterator_category"
  end.

Definition decl_member_call (U : ty) (f : string) (args : list expr)
    : option ty :=
  cd ← class_of (remove_cv (remove_reference U)); assoc (f, args) (calls cd).

Definition decl_invoke (C : ty) (args : list expr) : option ty :=
  cd ← class_of (decay_t C);
  assoc args ((λ Sig, (declval <$> sig_args Sig, sig_result Sig))
              <$> callable_as cd).

Definition decl_comma_true_type (R : ty) : option ty :=
  match R with
  | Tvoid => Some true_type
  | _ => default (Some true_type) (assoc R Ω)
  end.

Definition decl_value_member (X : ty) : option bool :=
  if decide (X = true_type) then Some true
  else if decide (X = false_type) then Some false
  else None.

Definition declared : Environment.
Proof.
  refine {|
    is_copy_constructible := decl_is_copy_constructible;
    is_destructible := decl_is_destructible;
    is_convertible := decl_is_convertible;
    is_base_of := decl_is_base_of;
    nested_type := decl_nested_type;
    iterator_category := decl_iterator_category;
    member_call := decl_member_call;
    invoke := decl_invoke;
    comma_true_type := decl_comma_true_type;
    value_member := decl_value_member
  |}.
  - reflexivity.
  - intros T n HT. unfold decl_nested_type.
    assert (class_of (remove_cv T) = None) as ->; [|reflexivity].
    induction T; simpl in *; try reflexivity; try discriminate; auto.
  - intros T f args HT. unfold decl_member_call.
    assert (class_of (remove_cv (remove_reference T)) = None) as ->;
      [|reflexivity].
    assert (remove_reference T = T) as -> by (destruct T; done).
    induction T; simpl in *; try reflexivity; try discriminate; auto.
  - reflexivity.
  - reflexivity.
  - reflexivity.
Defined.

End declared.

(** ** Model classes

    The classes of namespace [concept], the library types they mention, and
    a few candidate types on which the checks are run. *)
Module model.
Import concept.

Definition plain : class_decl :=
  ClassDecl true true [] [] [] [] [].

Definition std_string : ty := Tclass "std::string".

(** [concept::BufferSequence<BufferType>]: [value_type] is [BufferType],
    [const_iterator] is [BufferType const*], [begin()] and [end()] return
    [const_iterator]. *)
Definition BufferSequence (BufferType : ty) : class_decl :=
  let const_iterator := Tpointer (Tconst BufferType) in
  ClassDecl true true []
    [("value_type", BufferType); ("const_iterator", const_iterator)]
    [(("begin", []), const_iterator); (("end", []), const_iterator)]
    [] [].

(** [void(boost::system::error_code, std::size_t)]. *)
Definition completion : signature :=
  Signature Tvoid [error_code; Tsize_t].

Definition mbs : expr := declval MutableBufferSequence.
Definition cbs : expr := declval ConstBufferSequence.
Definition ec : expr := declval (Tlref error_code).
Definition handler : expr := declval StreamHandler.

Definition sync_read : list (string * list expr * ty) :=
  [(("read_some", [mbs]), Tsize_t); (("read_some", [mbs; ec]), Tsize_t)].
Definition sync_write : list (string * list expr * ty) :=
  [(("write_some", [cbs]), Tsize_t); (("write_some", [cbs; ec]), Tsize_t)].
Definition async_read (R : ty) : list (string * list expr * ty) :=
  [(("async_read_some", [mbs; handler]), R)].
Definition async_write (R : ty) : list (string * list expr * ty) :=
  [(("async_write_some", [cbs; handler]), R)].
Definition accessor (R : ty) : list (string * list expr * ty) :=
  [(("get_io_service", []), R)].

(** A stream buffer whose [size()] returns [S]. *)
Definition streambuf (P D S : ty) : class_decl :=
  ClassDecl true true [] []
    [(("prepare", [literal 1]), P);
     (("data", []), D);
     (("commit", [literal 1]), Tvoid);
     (("consume", [literal 1]), Tvoid);
     (("size", []), S)]
    [] [].

Definition Stream : ty := Tclass "model::Stream".
Definition NoAccessor : ty := Tclass "model::NoAccessor".
Definition ThrowingReader : ty := Tclass "model::ThrowingReader".
Definition ThrowingWriter : ty := Tclass "model::ThrowingWriter".
Definition StringReader : ty := Tclass "model::StringReader".
Definition Service : ty := Tclass "model::Service".
Definition ServiceStream : ty := Tclass "model::ServiceStream".
Definition Streambuf : ty := Tclass "model::Streambuf".
Definition SignedSize : ty := Tclass "model::SignedSize".
Definition StringSize : ty := Tclass "model::StringSize".
Definition MoveOnlyHandler : ty := Tclass "model::MoveOnlyHandler".
Definition InputIterator : ty := Tclass "model::InputIterator".
Definition InputSequence : ty := Tclass "model::InputSequence".
Definition NoBegin : ty := Tclass "model::NoBegin".
Definition Sealed : ty := Tclass "model::Sealed".
Definition Veto : ty := Tclass "model::Veto".
Definition Untyped : ty := Tclass "model::Untyped".
Definition UntypedStream : ty := Tclass "model::UntypedStream".

Definition classes : list (string * class_decl) :=
  [ ("boost::asio::const_buffer", plain);
    ("boost::asio::mutable_buffer",
       ClassDecl true true [] [] [] [const_buffer] []);
    ("boost::asio::io_service", ClassDecl false true [] [] [] [] []);
    ("boost::system::error_code", plain);
    ("std::string", plain);
    ("beast::concept::BufferSequence<boost::asio::const_buffer>",
       BufferSequence const_buffer);
    ("beast::concept::BufferSequence<boost::asio::mutable_buffer>",
       BufferSequence mutable_buffer);
    ("beast::concept::StreamHandler",
       ClassDecl true true [] [] [] [] [completion]);
    (* every operation of a stream *)
    ("model::Stream",
       ClassDecl false true [] []
         (accessor (Tlref io_service) ++ async_read Tvoid
          ++ async_write Tint ++ sync_read ++ sync_write) [] []);
    (* the same without [get_io_service] *)
    ("model::NoAccessor",
       ClassDecl false true [] []
         (async_read Tvoid ++ async_write Tvoid ++ sync_read ++ sync_write)
         [] []);
    (* only the overloads that report errors by throwing *)
    ("model::ThrowingReader",
       ClassDecl false true [] []
         [(("read_some", [mbs]), Tsize_t)] [] []);
    ("model::ThrowingWriter",
       ClassDecl false true [] []
         [(("write_some", [cbs]), Tsize_t)] [] []);
    (* [read_some] returns a string *)
    ("model::StringReader",
       ClassDecl false true [] []
         [(("read_some", [mbs]), std_string);
          (("read_some", [mbs; ec]), std_string)] [] []);
    (* [get_io_service] returns a reference to a class derived from
       [io_service] *)
    ("model::Service",
       ClassDecl false true ["boost::asio::io_service"] [] [] [] []);
    ("model::ServiceStream",
       ClassDecl false true [] []
         (accessor (Tlref Service) ++ async_read Tvoid ++ async_write Tvoid)
         [] []);
    ("model::Streambuf",
       streambuf MutableBufferSequence ConstBufferSequence Tsize_t);
    (* [size()] returns a signed type *)
    ("model::SignedSize",
       streambuf MutableBufferSequence ConstBufferSequence Tlong);
    (* [size()] returns a string *)
    ("model::StringSize",
       streambuf MutableBufferSequence ConstBufferSequence std_string);
    ("model::MoveOnlyHandler",
       ClassDecl false true [] [] [] [] [completion]);
    (* a sequence traversed by a single-pass iterator *)
    ("model::InputIterator",
       ClassDecl true true []
         [("iterator_category", Ttag input_iterator_tag)] [] [] []);
    ("model::InputSequence",
       ClassDecl true true []
         [("value_type", const_buffer); ("const_iterator", InputIterator)]
         [(("begin", []), InputIterator); (("end", []), InputIterator)]
         [] []);
    (* [concept::ConstBufferSequence] without [begin()] *)
    ("model::NoBegin",
       ClassDecl true true []
         [("value_type", const_buffer);
          ("const_iterator", Tpointer (Tconst const_buffer))]
         [(("end", []), Tpointer (Tconst const_buffer))]
         [] []);
    (* result types with an [operator,] of their own, see [commas] *)
    ("model::Sealed", plain);
    ("model::Veto", plain);
    ("model::Untyped", plain);
    (* a stream buffer whose [commit(n)] returns a [Sealed] *)
    ("model::SealedCommit",
       ClassDecl true true [] []
         [(("prepare", [literal 1]), MutableBufferSequence);
          (("data", []), ConstBufferSequence);
          (("commit", [literal 1]), Sealed);
          (("consume", [literal 1]), Tvoid);
          (("size", []), Tsize_t)]
         [] []);
    (* streams whose asynchronous operations return a [Veto], an
       [Untyped] *)
    ("model::VetoStream",
       ClassDecl false true [] []
         (accessor (Tlref io_service) ++ async_read Veto
          ++ async_write Veto ++ sync_read ++ sync_write) [] []);
    ("model::UntypedStream",
       ClassDecl false true [] []
         (accessor (Tlref io_service) ++ async_read Untyped
          ++ async_write Untyped ++ sync_read ++ sync_write) [] []) ].

(** [operator,(Sealed, std::true_type)] is deleted,
    [operator,(Veto, std::true_type)] returns [std::false_type] and
    [operator,(Untyped, std::true_type)] returns [int]. *)
Definition commas : list (ty * option ty) :=
  [ (Sealed, None); (Veto, Some false_type); (Untyped, Some Tint) ].

Definition env : Environment := declared classes commas.

End model.

(** ** The buffer-sequence contract as the specification words it

    The five numbered probes of the buffer sequence check. *)
Module BufferSequenceContract.
Section probes.
Context `{Environment} (T ElementKind : ty).

(** 1. T is copy-constructible and destructible. *)
Definition copy_and_destroy : Prop :=
  is_copy_constructible T = true ∧ is_destructible T = true.

(** 2. T exposes a nested element type convertible to the expected
    region-descriptor kind. *)
Definition element_type : Prop :=
  ∃ v, nested_type T "value_type" = Some v ∧
       is_convertible v ElementKind = true.

(** 3. T exposes a nested iterator type whose traversal category is at
    least forward-iterator. *)
Definition forward_traversal : Prop :=
  ∃ it cat, nested_type T "const_iterator" = Some it ∧
            iterator_category it = Some cat ∧
            is_base_of (Ttag forward_iterator_tag) cat = true.

(** 4. and 5. T exposes a [begin()] ([end()]) whose result is convertible
    to that iterator type. *)
Definition bound (f : string) : Prop :=
  ∃ it r, nested_type T "const_iterator" = Some it ∧
          member_call T f [] = Some r ∧
          is_convertible r it = true.

End probes.
End BufferSequenceContract.

(** The model classes with one more class declared after them. *)
Definition with_timer : list (string * class_decl) :=
  model.classes ++
  [("model::Timer",
    ClassDecl false true [] []
      (model.accessor (Tlref concept.io_service)) [] [])].

(** ** The declaration of [concept::BufferSequence<BufferType>]

    What the header declares for the class, as the probes see it on a class
    [S]: the two nested types, the declared destructor, the defaulted copy
    constructor, and [begin()] and [end()] returning [const_iterator].  The
    iterator type is the pointer [BufferType const*], for which
    [std::iterator_traits] gives [std::random_access_iterator_tag] and which
    converts to itself. *)
Record BufferSequence_declared `{Environment} (S BufferType : ty) : Prop := {
  declared_value_type :
    nested_type S "value_type" = Some BufferType;
  declared_const_iterator :
    nested_type S "const_iterator" = Some (Tpointer (Tconst BufferType));
  declared_destructor : is_destructible S = true;
  declared_copy : is_copy_constructible S = true;
  declared_begin :
    member_call S "begin" [] = Some (Tpointer (Tconst BufferType));
  declared_end :
    member_call S "end" [] = Some (Tpointer (Tconst BufferType));
  pointer_category :
    iterator_category (Tpointer (Tconst BufferType))
    = Some (Ttag random_access_iterator_tag);
  pointer_convertible :
    is_convertible (Tpointer (Tconst BufferType))
      (Tpointer (Tconst BufferType)) = true
}.

(** ** Richer environments

    [env_le E E'] when everything a probe can find in [E] it also finds in
    [E']: every trait that holds in [E] holds in [E'], and every nested
    type, iterator category, member call, invocation, comma expression and
    value member of [E] exists in [E'] with the same type or value.
    Declaring further classes, or further members of a class that do not
    change how the existing calls resolve, leads from [E] to such an
    [E']; declaring an [operator,] for a type whose comma was the built-in
    one does not. *)
Record env_le (E E' : Environment) : Prop := {
  le_copy_constructible : ∀ T,
    @is_copy_constructible E T = true → @is_copy_constructible E' T = true;
  le_destructible : ∀ T,
    @is_destructible E T = true → @is_destructible E' T = true;
  le_convertible : ∀ A B,
    @is_convertible E A B = true → @is_convertible E' A B = true;
  le_base_of : ∀ B D,
    @is_base_of E B D = true → @is_base_of E' B D = true;
  le_nested_type : ∀ U n R,
    @nested_type E U n = Some R → @nested_type E' U n = Some R;
  le_iterator_category : ∀ It C,
    @iterator_category E It = Some C → @iterator_category E' It = Some C;
  le_member_call : ∀ U f args R,
    @member_call E U f args = Some R → @member_call E' U f args = Some R;
  le_invoke : ∀ C args R,
    @invoke E C args = Some R → @invoke E' C args = Some R;
  le_comma_true_type : ∀ R X,
    @comma_true_type E R = Some X → @comma_true_type E' R = Some X;
  le_value_member : ∀ X b,
    @value_member E X = Some b → @value_member E' X = Some b
}.

(** * Properties *)

(** ** The detection idiom *)

Lemma decltype_check_true (R : option bool) :
  decltype_check R = true ↔ R = Some true.
Proof. destruct R as [[]|]; simpl; split; congruence. Qed.

Lemma void_t_Some (Ts : list (option bool)) :
  void_t Ts = Some () ↔ Forall is_Some Ts.
Proof.
  unfold void_t. induction Ts as [|t Ts IH]; simpl.
  - split; [constructor | reflexivity].
  - rewrite Forall_cons. case_bool_decide as Ht; simpl.
    + rewrite IH. tauto.
    + split; [discriminate | tauto].
Qed.

Lemma bind_is_Some {A B : Type} (m : option A) (f : A → B) :
  is_Some (x ← m; Some (f x)) ↔ is_Some m.
Proof. destruct m; simpl; split; intros [? ?]; eauto; discriminate. Qed.

Section properties.
Context `{Environment}.

Lemma is_BufferSequence_type1 (T B : ty) :
  is_BufferSequence.type1 T B = true ↔
  BufferSequenceContract.element_type T B.
Proof.
  unfold is_BufferSequence.type1, is_BufferSequence.check1,
    BufferSequenceContract.element_type.
  rewrite decltype_check_true, bind_Some.
  split; intros (v & Hv & Hc); exists v; split; congruence.
Qed.

Lemma is_BufferSequence_type2 (T : ty) :
  is_BufferSequence.type2 T = true ↔
  BufferSequenceContract.forward_traversal T.
Proof.
  unfold is_BufferSequence.type2, is_BufferSequence.check2,
    BufferSequenceContract.forward_traversal.
  rewrite decltype_check_true, bind_Some.
  setoid_rewrite bind_Some. split.
  - intros (it & Hit & cat & Hcat & Hb). exists it, cat.
    repeat split; congruence.
  - intros (it & cat & Hit & Hcat & Hb). exists it. split; [done|].
    exists cat. split; congruence.
Qed.

Lemma is_BufferSequence_type3 (T : ty) :
  is_BufferSequence.type3 T = true ↔
  BufferSequenceContract.bound T "begin".
Proof.
  unfold is_BufferSequence.type3, is_BufferSequence.check3,
    BufferSequenceContract.bound.
  rewrite decltype_check_true, bind_Some.
  setoid_rewrite bind_Some. split.
  - intros (r & Hr & it & Hit & Hc). exists it, r.
    repeat split; congruence.
  - intros (it & r & Hit & Hr & Hc). exists r. split; [done|].
    exists it. split; congruence.
Qed.

Lemma is_BufferSequence_type4 (T : ty) :
  is_BufferSequence.type4 T = true ↔
  BufferSequenceContract.bound T "end".
Proof.
  unfold is_BufferSequence.type4, is_BufferSequence.check4,
    BufferSequenceContract.bound.
  rewrite decltype_check_true, bind_Some.
  setoid_rewrite bind_Some. split.
  - intros (r & Hr & it & Hit & Hc). exists it, r.
    repeat split; congruence.
  - intros (it & r & Hit & Hr & Hc). exists r. split; [done|].
    exists it. split; congruence.
Qed.

(** C1: [is_BufferSequence<T, BufferType>::value] is true exactly when the
    five probes all succeed: [T] is copy-constructible and destructible,
    [T::value_type] converts to [BufferType], the category of
    [T::const_iterator] derives from [std::forward_iterator_tag], and the
    results of [begin()] and of [end()] convert to [T::const_iterator].  If
    any one of them fails the value is false; in particular a
    [const_iterator] whose category is a standard tag that is not forward or
    better makes it false. *)
Theorem is_BufferSequence_value_iff (T BufferType : ty) :
  (is_BufferSequence.value T BufferType = true ↔
     BufferSequenceContract.copy_and_destroy T ∧
     BufferSequenceContract.element_type T BufferType ∧
     BufferSequenceContract.forward_traversal T ∧
     BufferSequenceContract.bound T "begin" ∧
     BufferSequenceContract.bound T "end") ∧
  (¬ BufferSequenceContract.copy_and_destroy T ∨
   ¬ BufferSequenceContract.element_type T BufferType ∨
   ¬ BufferSequenceContract.forward_traversal T ∨
   ¬ BufferSequenceContract.bound T "begin" ∨
   ¬ BufferSequenceContract.bound T "end" →
   is_BufferSequence.value T BufferType = false) ∧
  (∀ it c,
     nested_type T "const_iterator" = Some it →
     iterator_category it = Some (Ttag c) →
     tag_base_of forward_iterator_tag c = false →
     is_BufferSequence.value T BufferType = false).
Proof.
  assert (is_BufferSequence.value T BufferType = true ↔
     BufferSequenceContract.copy_and_destroy T ∧
     BufferSequenceContract.element_type T BufferType ∧
     BufferSequenceContract.forward_traversal T ∧
     BufferSequenceContract.bound T "begin" ∧
     BufferSequenceContract.bound T "end") as Hiff.
  { unfold is_BufferSequence.value, BufferSequenceContract.copy_and_destroy.
    rewrite !andb_true_iff, is_BufferSequence_type1,
      is_BufferSequence_type2,
      is_BufferSequence_type3, is_BufferSequence_type4.
    tauto. }
  split; [exact Hiff|]. split.
  - intros Hfail. apply not_true_is_false. rewrite Hiff. tauto.
  - intros it c Hit Hcat Hc. apply not_true_is_false. rewrite Hiff.
    intros (_ & _ & (it' & cat & Hit' & Hcat' & Hbase) & _).
    rewrite Hit in Hit'. injection Hit' as <-.
    rewrite Hcat in Hcat'. injection Hcat' as <-.
    rewrite is_base_of_tag in Hbase. congruence.
Qed.

(** ** The stream checks *)

Lemma has_get_io_service_value (T : ty) :
  has_get_io_service.value T = true ↔
  member_call T "get_io_service" [] = Some (Tlref concept.io_service).
Proof.
  unfold has_get_io_service.value, has_get_io_service.type,
    has_get_io_service.check, is_same.
  rewrite decltype_check_true, bind_Some. split.
  - intros (r & Hr & [= Hsame]). apply bool_decide_eq_true in Hsame.
    congruence.
  - intros Hr. exists (Tlref concept.io_service). split; [done|].
    by rewrite bool_decide_eq_true_2.
Qed.

Lemma comma_value_true (m : option ty) :
  default false (value_member (decltype_type (R ← m; comma_true_type R)))
  = true ↔
  ∃ R X, m = Some R ∧ comma_true_type R = Some X ∧
         value_member X = Some true.
Proof.
  unfold decltype_type. destruct m as [R|]; simpl.
  - destruct (comma_true_type R) as [X|] eqn:HX; simpl.
    + destruct (value_member X) as [[]|] eqn:Hv; simpl; split;
        try discriminate; try (intros (R' & X' & [= <-] & HX' & Hv');
                               congruence).
      intros _. exists R, X. repeat split; done.
    + rewrite value_member_false_type. simpl. split; [discriminate|].
      intros (R' & X' & [= <-] & HX' & _). congruence.
  - rewrite value_member_false_type. simpl. split; [discriminate|].
    intros (R' & X' & HR & _). discriminate.
Qed.

Lemma comma_arg_is_Some (m : option ty) :
  is_Some (R ← m; X ← comma_true_type R;
           Some (default false (value_member X))) ↔
  ∃ R X, m = Some R ∧ comma_true_type R = Some X.
Proof.
  destruct m as [R|]; simpl.
  - destruct (comma_true_type R) as [X|] eqn:HX; simpl; split.
    + intros _. by exists R, X.
    + intros _. eauto.
    + intros [? ?]. discriminate.
    + intros (R' & X' & [= <-] & ?). congruence.
  - split.
    + intros [? ?]. discriminate.
    + intros (R' & X' & ? & _). discriminate.
Qed.

Lemma is_AsyncReadStream_value (T : ty) :
  is_AsyncReadStream.value T = true ↔
  has_get_io_service.value T = true ∧
  ∃ R X, member_call T "async_read_some"
           [declval concept.MutableBufferSequence;
            declval concept.ReadHandler] = Some R ∧
         comma_true_type R = Some X ∧ value_member X = Some true.
Proof.
  unfold is_AsyncReadStream.value, is_AsyncReadStream.type,
    is_AsyncReadStream.check.
  by rewrite andb_true_iff, comma_value_true.
Qed.

Lemma is_AsyncWriteStream_value (T : ty) :
  is_AsyncWriteStream.value T = true ↔
  has_get_io_service.value T = true ∧
  ∃ R X, member_call T "async_write_some"
           [declval concept.ConstBufferSequence;
            declval concept.WriteHandler] = Some R ∧
         comma_true_type R = Some X ∧ value_member X = Some true.
Proof.
  unfold is_AsyncWriteStream.value, is_AsyncWriteStream.type,
    is_AsyncWriteStream.check.
  by rewrite andb_true_iff, comma_value_true.
Qed.

Lemma same_type_check (m : option ty) (R : ty) :
  decltype_check (r ← m; Some (is_same r R)) = true ↔ m = Some R.
Proof.
  rewrite decltype_check_true. unfold is_same.
  destruct m as [r|]; simpl; [|split; discriminate].
  split.
  - intros [= Hsame]. apply bool_decide_eq_true in Hsame. congruence.
  - intros [= ->]. by rewrite bool_decide_eq_true_2.
Qed.


(** C5: [is_SyncReadStream<T>::value] is true exactly when both
    [read_some(buffers)] and [read_some(buffers, ec)] are well-formed on a
    [T] and both have type [std::size_t]; a [T] on which only the first is
    well-formed gives false.  [is_SyncWriteStream] is the same over
    [write_some] and a const buffer sequence. *)
Theorem is_SyncStream_value_iff (T : ty) :
  (is_SyncReadStream.value T = true ↔
     member_call T "read_some"
       [declval concept.MutableBufferSequence] = Some Tsize_t ∧
     member_call T "read_some"
       [declval concept.MutableBufferSequence;
        declval (Tlref concept.error_code)] = Some Tsize_t) ∧
  (member_call T "read_some"
     [declval concept.MutableBufferSequence;
      declval (Tlref concept.error_code)] = None →
   is_SyncReadStream.value T = false) ∧
  (is_SyncWriteStream.value T = true ↔
     member_call T "write_some"
       [declval concept.ConstBufferSequence] = Some Tsize_t ∧
     member_call T "write_some"
       [declval concept.ConstBufferSequence;
        declval (Tlref concept.error_code)] = Some Tsize_t) ∧
  (member_call T "write_some"
     [declval concept.ConstBufferSequence;
      declval (Tlref concept.error_code)] = None →
   is_SyncWriteStream.value T = false).
Proof.
  unfold is_SyncReadStream.value, is_SyncReadStream.type1,
    is_SyncReadStream.type2, is_SyncReadStream.check1,
    is_SyncReadStream.check2, is_SyncReadStream.error_code,
    is_SyncWriteStream.value, is_SyncWriteStream.type1,
    is_SyncWriteStream.type2, is_SyncWriteStream.check1,
    is_SyncWriteStream.check2, is_SyncWriteStream.error_code.
  rewrite !andb_true_iff, !same_type_check.
  split; [reflexivity|]. split.
  { intros ->. simpl. apply andb_false_r. }
  split; [reflexivity|].
  intros ->. simpl. apply andb_false_r.
Qed.


(** C7: [has_get_io_service<T>::value] is true exactly when
    [get_io_service()] is well-formed on a [T] and its type is
    [boost::asio::io_service&]; any other result type gives false, also one
    that converts to [io_service&]. *)
Theorem has_get_io_service_value_iff (T : ty) :
  (has_get_io_service.value T = true ↔
     member_call T "get_io_service" [] = Some (Tlref concept.io_service)) ∧
  (∀ R, member_call T "get_io_service" [] = Some R →
        R ≠ Tlref concept.io_service →
        is_convertible R (Tlref concept.io_service) = true →
        has_get_io_service.value T = false).
Proof.
  split; [apply has_get_io_service_value|].
  intros R HR Hne _. apply not_true_is_false.
  rewrite has_get_io_service_value. congruence.
Qed.

(** ** The handler check *)

Lemma decay_t_qualified_forms (U T : ty) :
  unqualified U = true → T ∈ qualified_forms U → decay_t T = U.
Proof.
  intros HU HT.
  assert (remove_cv U = U ∧ remove_reference U = U) as [Hcv Href]
    by (destruct U; done).
  unfold qualified_forms in HT. rewrite !elem_of_cons in HT.
  unfold decay_t.
  destruct HT as [-> | [-> | [-> | [-> | [-> | [-> | HT]]]]]]; simpl;
    [by rewrite Href | done.. | by apply elem_of_nil in HT].
Qed.

(** C8: for [T] a type [U], [U const] or a reference to either,
    [is_Handler<T, Signature>::value] is true exactly when [U], the decayed
    form of [T], is copy-constructible and a [T] can be called with
    arguments of the types of [Signature], whatever the call returns; a
    callable with the right signature whose decayed type cannot be copied
    gives false, also when it is passed by reference. *)
Theorem is_Handler_iff (T U : ty) (Sig : signature) :
  unqualified U = true →
  T ∈ qualified_forms U →
  (is_Handler T Sig = true ↔
     is_copy_constructible U = true ∧
     ∃ R, invoke T (declval <$> sig_args Sig) = Some R) ∧
  ((∃ R, invoke T (declval <$> sig_args Sig) = Some R) →
   is_copy_constructible U = false →
   is_Handler T Sig = false).
Proof.
  intros HU HT. unfold is_Handler, is_call_possible.
  rewrite (decay_t_qualified_forms U T HU HT). split.
  - rewrite andb_true_iff, bool_decide_eq_true. reflexivity.
  - intros _ ->. reflexivity.
Qed.

(** ** The stream buffer check *)

Lemma is_Streambuf_value (T : ty) :
  is_Streambuf.value T = true ↔
  is_Some (member_call T "prepare" [literal 1]) ∧
  is_Some (member_call T "data" []) ∧
  (∃ R X, member_call T "commit" [literal 1] = Some R ∧
          comma_true_type R = Some X) ∧
  (∃ R X, member_call T "consume" [literal 1] = Some R ∧
          comma_true_type R = Some X) ∧
  is_Some (member_call T "size" []).
Proof.
  unfold is_Streambuf.value.
  assert (is_Streambuf.specialization T = Some () ↔
          is_Streambuf.value T = true) as <-.
  { unfold is_Streambuf.value.
    destruct (is_Streambuf.specialization T) as [[]|]; split; congruence. }
  unfold is_Streambuf.specialization. rewrite void_t_Some.
  rewrite !Forall_cons, Forall_nil.
  unfold is_Streambuf.prepare_arg, is_Streambuf.data_arg,
    is_Streambuf.commit_arg, is_Streambuf.consume_arg,
    is_Streambuf.size_arg.
  rewrite !bind_is_Some, !comma_arg_is_Some. tauto.
Qed.


(** ** Scalar types *)


(** A member with the right name and the wrong result type is absorbed by
    the probes that compare the result type: the check is false. *)
Lemma is_SyncReadStream_mismatch (T R : ty) :
  member_call T "read_some"
    [declval concept.MutableBufferSequence] = Some R →
  R ≠ Tsize_t →
  is_SyncReadStream.value T = false.
Proof.
  intros HR Hne. apply not_true_is_false.
  intros Hv. apply andb_true_iff in Hv as [Hv _].
  apply same_type_check in Hv. congruence.
Qed.

Lemma is_SyncWriteStream_mismatch (T R : ty) :
  member_call T "write_some"
    [declval concept.ConstBufferSequence] = Some R →
  R ≠ Tsize_t →
  is_SyncWriteStream.value T = false.
Proof.
  intros HR Hne. apply not_true_is_false.
  intros Hv. apply andb_true_iff in Hv as [Hv _].
  apply same_type_check in Hv. congruence.
Qed.

End properties.

(** * The checks on the model classes *)

Section on_model.
#[local] Existing Instance model.env.
Import concept model.

(** The [static_assert]s of the header. *)
Lemma static_asserts :
  is_ConstBufferSequence ConstBufferSequence = true ∧
  negb (is_ConstBufferSequence Tint) = true ∧
  is_MutableBufferSequence MutableBufferSequence = true ∧
  negb (is_MutableBufferSequence Tint) = true ∧
  negb (has_get_io_service.value Tint) = true ∧
  negb (is_AsyncReadStream.value Tint) = true ∧
  negb (is_AsyncWriteStream.value Tint) = true ∧
  negb (is_SyncReadStream.value Tint) = true ∧
  negb (is_SyncWriteStream.value Tint) = true.
Proof. vm_compute. repeat split. Qed.

(** The scenarios listed by the specification: a minimal sequence, the same
    without [begin()], an asynchronous stream with and without the accessor,
    a stream buffer, a copyable and a move-only handler. *)
Lemma scenarios :
  is_ConstBufferSequence ConstBufferSequence = true ∧
  is_ConstBufferSequence NoBegin = false ∧
  is_AsyncReadStream.value Stream = true ∧
  is_AsyncReadStream.value NoAccessor = false ∧
  is_Streambuf.value Streambuf = true ∧
  is_Handler StreamHandler completion = true ∧
  is_Handler MoveOnlyHandler completion = false.
Proof. vm_compute. repeat split. Qed.

(** A mutable buffer converts to a const buffer, so a mutable buffer
    sequence is also a const buffer sequence, and not the other way
    round. *)
Lemma mutable_is_const_sequence :
  is_ConstBufferSequence MutableBufferSequence = true ∧
  is_MutableBufferSequence ConstBufferSequence = false.
Proof. vm_compute. split; reflexivity. Qed.

(** On [model::UntypedStream] the comma expression has type [int], which
    has no [value] member: the two asynchronous checks cannot be
    instantiated. *)
Lemma untyped_stream_not_instantiable :
  is_AsyncReadStream.type UntypedStream = Tint ∧
  is_AsyncReadStream.instantiable UntypedStream = false ∧
  is_AsyncWriteStream.instantiable UntypedStream = false.
Proof. vm_compute. repeat split. Qed.

(** C3: on [model::SignedSize], a stream buffer whose [prepare(1)] and
    [data()] return buffer sequences and whose [size()] returns the signed
    type [long], the contract of the specification is false but
    [is_Streambuf<T>::value] is true; on [model::Streambuf], which differs
    only in [size()] returning [std::size_t], both are true. *)
Theorem is_Streambuf_signed_size :
  member_call SignedSize "size" [] = Some Tlong ∧
  growable_buffer_contract SignedSize = false ∧
  is_Streambuf.value SignedSize = true ∧
  growable_buffer_contract Streambuf = true ∧
  is_Streambuf.value Streambuf = true.
Proof. vm_compute. repeat split. Qed.

(** C10: on [model::StringSize], whose [size()] returns a string instead
    of [std::size_t], [is_Streambuf<T>::value] is true: the mismatch is not
    turned into a false result.  On [model::StringReader], whose [read_some]
    returns a string, [is_SyncReadStream<T>::value] is false. *)
Theorem is_Streambuf_string_size :
  member_call StringSize "size" [] = Some std_string ∧
  growable_buffer_contract StringSize = false ∧
  is_Streambuf.value StringSize = true ∧
  member_call StringReader "read_some"
    [declval MutableBufferSequence] = Some std_string ∧
  is_SyncReadStream.value StringReader = false.
Proof. vm_compute. repeat split. Qed.

(** ** Instances of the general properties *)

Lemma is_BufferSequence_value_iff_witness :
  is_ConstBufferSequence InputSequence = false.
Proof.
  apply (proj2 (proj2
    (is_BufferSequence_value_iff InputSequence const_buffer))
    InputIterator input_iterator_tag); reflexivity.
Defined.






Lemma is_SyncStream_value_iff_witness :
  is_SyncReadStream.value ThrowingReader = false ∧
  is_SyncWriteStream.value ThrowingWriter = false.
Proof.
  split.
  - apply (proj1 (proj2 (is_SyncStream_value_iff ThrowingReader))).
    reflexivity.
  - apply (proj2 (proj2 (proj2 (is_SyncStream_value_iff ThrowingWriter)))).
    reflexivity.
Defined.

Lemma has_get_io_service_value_iff_witness :
  member_call ServiceStream "get_io_service" [] = Some (Tlref Service) ∧
  Tlref Service ≠ Tlref io_service ∧
  is_convertible (Tlref Service) (Tlref io_service) = true ∧
  has_get_io_service.value ServiceStream = false.
Proof.
  split; [reflexivity|]. split; [discriminate|]. split; [reflexivity|].
  apply (proj2 (has_get_io_service_value_iff ServiceStream)
           (Tlref Service));
    [reflexivity | discriminate | reflexivity].
Defined.

Lemma is_Handler_iff_witness :
  unqualified MoveOnlyHandler = true ∧
  Tlref (Tconst MoveOnlyHandler) ∈ qualified_forms MoveOnlyHandler ∧
  (∃ R, invoke (Tlref (Tconst MoveOnlyHandler))
          (declval <$> sig_args completion) = Some R) ∧
  is_copy_constructible MoveOnlyHandler = false ∧
  is_copy_constructible (Tlref (Tconst MoveOnlyHandler)) = true ∧
  is_Handler (Tlref (Tconst MoveOnlyHandler)) completion = false.
Proof.
  assert (Tlref (Tconst MoveOnlyHandler) ∈ qualified_forms MoveOnlyHandler)
    as Hform by (unfold qualified_forms; rewrite !elem_of_cons; auto).
  split; [reflexivity|]. split; [exact Hform|].
  split; [by exists Tvoid|]. split; [reflexivity|]. split; [reflexivity|].
  apply (proj2 (is_Handler_iff (Tlref (Tconst MoveOnlyHandler))
                  MoveOnlyHandler completion eq_refl Hform)).
  - by exists Tvoid.
  - reflexivity.
Defined.


End on_model.

(** * Further properties of the checks *)

Lemma tag_forward_or_better (c : iterator_tag) :
  tag_base_of forward_iterator_tag c = true ↔
  c = forward_iterator_tag ∨ c = bidirectional_iterator_tag ∨
  c = random_access_iterator_tag.
Proof.
  destruct c; simpl; split; auto; try discriminate;
    intros [Hc | [Hc | Hc]]; discriminate.
Qed.

Section further.
Context `{Environment}.

Lemma is_BufferSequence_value_probes (T BufferType : ty) :
  is_BufferSequence.value T BufferType = true ↔
  BufferSequenceContract.copy_and_destroy T ∧
  BufferSequenceContract.element_type T BufferType ∧
  BufferSequenceContract.forward_traversal T ∧
  BufferSequenceContract.bound T "begin" ∧
  BufferSequenceContract.bound T "end".
Proof.
  unfold is_BufferSequence.value, BufferSequenceContract.copy_and_destroy.
  rewrite !andb_true_iff, is_BufferSequence_type1, is_BufferSequence_type2,
    is_BufferSequence_type3, is_BufferSequence_type4.
  tauto.
Qed.

(** X1: a class declared as the header declares
    [concept::BufferSequence<BufferType>] is a buffer sequence of element
    kind [B] exactly when [BufferType] converts to [B]. *)
Theorem concept_BufferSequence_value (S BufferType B : ty) :
  BufferSequence_declared S BufferType →
  is_BufferSequence.value S B = is_convertible BufferType B.
Proof.
  intros [Hv Hit Hd Hc Hb He Hcat Hconv].
  unfold is_BufferSequence.value, is_BufferSequence.type1,
    is_BufferSequence.type2, is_BufferSequence.type3,
    is_BufferSequence.type4, is_BufferSequence.check1,
    is_BufferSequence.check2, is_BufferSequence.check3,
    is_BufferSequence.check4.
  rewrite Hc, Hd, Hv, Hit, Hb, He. simpl.
  rewrite Hcat. simpl. rewrite is_base_of_tag, Hconv. simpl.
  by rewrite !andb_true_r.
Qed.

(** X2: when the two asynchronous checks can be instantiated,
    [is_Stream<T>::value] is true exactly when, on a [T],
    [get_io_service()] has type [io_service&], [async_read_some] and
    [async_write_some] are well-formed with a buffer sequence and a
    handler and the comma expressions built on them have a type that
    carries [true], and the four [read_some] and [write_some] calls have
    type [std::size_t].  No trait of [T] is looked at. *)
Theorem is_Stream_member_calls (T : ty) :
  is_AsyncReadStream.instantiable T = true →
  is_AsyncWriteStream.instantiable T = true →
  (is_Stream.value T = true ↔
   member_call T "get_io_service" [] = Some (Tlref concept.io_service) ∧
   (∃ R X, member_call T "async_read_some"
             [declval concept.MutableBufferSequence;
              declval concept.ReadHandler] = Some R ∧
           comma_true_type R = Some X ∧ value_member X = Some true) ∧
   (∃ R X, member_call T "async_write_some"
             [declval concept.ConstBufferSequence;
              declval concept.WriteHandler] = Some R ∧
           comma_true_type R = Some X ∧ value_member X = Some true) ∧
   member_call T "read_some"
     [declval concept.MutableBufferSequence] = Some Tsize_t ∧
   member_call T "read_some"
     [declval concept.MutableBufferSequence;
      declval (Tlref concept.error_code)] = Some Tsize_t ∧
   member_call T "write_some"
     [declval concept.ConstBufferSequence] = Some Tsize_t ∧
   member_call T "write_some"
     [declval concept.ConstBufferSequence;
      declval (Tlref concept.error_code)] = Some Tsize_t).
Proof.
  intros _ _. unfold is_Stream.value.
  rewrite !andb_true_iff, is_AsyncReadStream_value,
    is_AsyncWriteStream_value.
  unfold is_SyncReadStream.value, is_SyncReadStream.type1,
    is_SyncReadStream.type2, is_SyncReadStream.check1,
    is_SyncReadStream.check2, is_SyncReadStream.error_code,
    is_SyncWriteStream.value, is_SyncWriteStream.type1,
    is_SyncWriteStream.type2, is_SyncWriteStream.check1,
    is_SyncWriteStream.check2, is_SyncWriteStream.error_code.
  rewrite !andb_true_iff, !same_type_check, has_get_io_service_value.
  tauto.
Qed.

(** X3: for a [T] whose other probes succeed and whose [const_iterator] has
    a standard category tag, [is_BufferSequence<T, B>::value] is true
    exactly when the tag is forward, bidirectional or random access: a
    forward-only iterator is enough, a bidirectional one is not required. *)
Theorem is_BufferSequence_standard_category (T B it : ty) (c : iterator_tag) :
  nested_type T "const_iterator" = Some it →
  iterator_category it = Some (Ttag c) →
  BufferSequenceContract.copy_and_destroy T →
  BufferSequenceContract.element_type T B →
  BufferSequenceContract.bound T "begin" →
  BufferSequenceContract.bound T "end" →
  (is_BufferSequence.value T B = true ↔
   c = forward_iterator_tag ∨ c = bidirectional_iterator_tag ∨
   c = random_access_iterator_tag).
Proof.
  intros Hit Hcat Hcd Hel Hb He.
  rewrite is_BufferSequence_value_probes.
  assert (BufferSequenceContract.forward_traversal T ↔
          tag_base_of forward_iterator_tag c = true) as Hfw.
  { unfold BufferSequenceContract.forward_traversal. split.
    - intros (it' & cat & Hit' & Hcat' & Hbase).
      rewrite Hit in Hit'. injection Hit' as <-.
      rewrite Hcat in Hcat'. injection Hcat' as <-.
      by rewrite is_base_of_tag in Hbase.
    - intros Hbase. exists it, (Ttag c).
      by rewrite is_base_of_tag. }
  rewrite Hfw, tag_forward_or_better. tauto.
Qed.

(** X4: once [T] is a buffer sequence of element kind [B], it is one of
    element kind [B'] exactly when its [value_type] converts to [B']; so a
    mutable buffer sequence is a const buffer sequence as soon as its
    elements convert to [const_buffer]. *)
Theorem is_BufferSequence_element_kind (T B B' v : ty) :
  nested_type T "value_type" = Some v →
  is_BufferSequence.value T B = true →
  is_BufferSequence.value T B' = is_convertible v B'.
Proof.
  intros Hv HB.
  apply is_BufferSequence_value_probes in HB
    as (Hcd & _ & Hfw & Hb & He).
  destruct (is_convertible v B') eqn:Hconv.
  - apply is_BufferSequence_value_probes.
    split; [done|]. split; [by exists v|]. done.
  - apply not_true_is_false. rewrite is_BufferSequence_value_probes.
    intros (_ & (v' & Hv' & Hconv') & _). congruence.
Qed.

(** X5: [is_Streambuf<T>::value] is false as soon as one of [prepare(1)],
    [data()], [commit(1)], [consume(1)] and [size()] is ill-formed on a
    [T]. *)
Theorem is_Streambuf_missing_member (T : ty) :
  member_call T "prepare" [literal 1] = None ∨
  member_call T "data" [] = None ∨
  member_call T "commit" [literal 1] = None ∨
  member_call T "consume" [literal 1] = None ∨
  member_call T "size" [] = None →
  is_Streambuf.value T = false.
Proof.
  intros Hmiss. apply not_true_is_false. rewrite is_Streambuf_value.
  intros ([P HP] & [D HD] & (Rc & Xc & Hcommit & _)
          & (Rs & Xs & Hconsume & _) & [S Hsize]).
  destruct Hmiss as [Hn | [Hn | [Hn | [Hn | Hn]]]]; congruence.
Qed.

(** X6: the copy requirement of [is_Handler] is on the decayed type: for a
    class or scalar [T] that cannot be copied, [is_Handler] is false on
    [T&], [T const&], [T&&] and [T const] as well, although a reference
    type is itself trivially copyable. *)
Theorem is_Handler_reference (T : ty) (Sig : signature) :
  remove_reference T = T →
  remove_cv T = T →
  is_copy_constructible T = false →
  is_Handler T Sig = false ∧
  is_Handler (Tlref T) Sig = false ∧
  is_Handler (Tlref (Tconst T)) Sig = false ∧
  is_Handler (Trref T) Sig = false ∧
  is_Handler (Tconst T) Sig = false.
Proof.
  intros Href Hcv Hcopy. unfold is_Handler, decay_t. simpl.
  rewrite Href, Hcv, Hcopy. repeat split.
Qed.

End further.

(** ** Monotonicity *)

(** X7: no probe is negated: when everything the probes can find in an
    environment [E] is also found in [E'], every check that is true in [E]
    is true in [E'].  Declaring further classes or members that leave the
    existing calls and comma expressions as they are never turns a true
    result into false. *)
Theorem checks_monotone (E E' : Environment) (T B : ty) (Sig : signature) :
  env_le E E' →
  (@is_BufferSequence.value E T B = true →
   @is_BufferSequence.value E' T B = true) ∧
  (@has_get_io_service.value E T = true →
   @has_get_io_service.value E' T = true) ∧
  (@is_AsyncReadStream.value E T = true →
   @is_AsyncReadStream.value E' T = true) ∧
  (@is_AsyncWriteStream.value E T = true →
   @is_AsyncWriteStream.value E' T = true) ∧
  (@is_SyncReadStream.value E T = true →
   @is_SyncReadStream.value E' T = true) ∧
  (@is_SyncWriteStream.value E T = true →
   @is_SyncWriteStream.value E' T = true) ∧
  (@is_Stream.value E T = true → @is_Stream.value E' T = true) ∧
  (@is_Streambuf.value E T = true → @is_Streambuf.value E' T = true) ∧
  (@is_Handler E T Sig = true → @is_Handler E' T Sig = true).
Proof.
  intros [Hcopy Hdestr Hconv Hbase Hnested Hcat Hcall Hinvoke Hcomma Hvalue].
  assert (@has_get_io_service.value E T = true →
          @has_get_io_service.value E' T = true) as Hget.
  { rewrite !has_get_io_service_value. apply Hcall. }
  assert (@is_AsyncReadStream.value E T = true →
          @is_AsyncReadStream.value E' T = true) as Har.
  { rewrite !is_AsyncReadStream_value.
    intros [? (R & X & ? & ? & ?)]. split; [auto|]. exists R, X. auto. }
  assert (@is_AsyncWriteStream.value E T = true →
          @is_AsyncWriteStream.value E' T = true) as Haw.
  { rewrite !is_AsyncWriteStream_value.
    intros [? (R & X & ? & ? & ?)]. split; [auto|]. exists R, X. auto. }
  assert (@is_SyncReadStream.value E T = true →
          @is_SyncReadStream.value E' T = true) as Hsr.
  { unfold is_SyncReadStream.value, is_SyncReadStream.type1,
      is_SyncReadStream.type2, is_SyncReadStream.check1,
      is_SyncReadStream.check2.
    rewrite !andb_true_iff, !same_type_check. intros [? ?]; auto. }
  assert (@is_SyncWriteStream.value E T = true →
          @is_SyncWriteStream.value E' T = true) as Hsw.
  { unfold is_SyncWriteStream.value, is_SyncWriteStream.type1,
      is_SyncWriteStream.type2, is_SyncWriteStream.check1,
      is_SyncWriteStream.check2.
    rewrite !andb_true_iff, !same_type_check. intros [? ?]; auto. }
  split; [|split; [exact Hget|]; split; [exact Har|]; split; [exact Haw|];
           split; [exact Hsr|]; split; [exact Hsw|]; split; [|split]].
  - rewrite !is_BufferSequence_value_probes.
    unfold BufferSequenceContract.copy_and_destroy,
      BufferSequenceContract.element_type,
      BufferSequenceContract.forward_traversal,
      BufferSequenceContract.bound.
    intros ([Hc Hd] & (v & Hv & Hvc) & (it & cat & Hit & Hic & Hfw)
            & (it1 & r1 & Hit1 & Hr1 & Hc1) & (it2 & r2 & Hit2 & Hr2 & Hc2)).
    split; [split; auto|].
    split; [exists v; auto|].
    split; [exists it, cat; auto|].
    split; [exists it1, r1; auto | exists it2, r2; auto].
  - unfold is_Stream.value. rewrite !andb_true_iff.
    intros [[[? ?] ?] ?]; auto.
  - assert (∀ f args, is_Some (@member_call E T f args) →
                      is_Some (@member_call E' T f args)) as Hwf.
    { intros f args [R HR]. exists R. by apply Hcall. }
    rewrite !is_Streambuf_value.
    intros (? & ? & (Rc & Xc & ? & ?) & (Rs & Xs & ? & ?) & ?).
    split; [auto|]. split; [auto|].
    split; [exists Rc, Xc; auto|]. split; [exists Rs, Xs; auto|]. auto.
  - unfold is_Handler, is_call_possible.
    rewrite !andb_true_iff, !bool_decide_eq_true.
    intros [? [R HR]]. split; [auto|]. exists R. auto.
Qed.

(** Declaring further classes after those of a table gives a richer
    environment. *)
Section more_classes.
Variables Γ Δ : list (string * class_decl).
Variable Ω : list (ty * option ty).

Lemma assoc_app_Some {K V : Type} `{EqDecision K}
    (k : K) (v : V) (l l' : list (K * V)) :
  assoc k l = Some v → assoc k (l ++ l') = Some v.
Proof.
  induction l as [|[k' v'] l IH]; simpl; [discriminate|].
  destruct (decide (k = k')); auto.
Qed.

Lemma class_of_app (T : ty) (cd : class_decl) :
  class_of Γ T = Some cd → class_of (Γ ++ Δ) T = Some cd.
Proof. destruct T; simpl; try discriminate. apply assoc_app_Some. Qed.

Lemma from_option_class_of_app (f : class_decl → bool) (T : ty) :
  from_option f false (class_of Γ T) = true →
  from_option f false (class_of (Γ ++ Δ) T) = true.
Proof.
  destruct (class_of Γ T) as [cd|] eqn:Hcd; simpl; [|discriminate].
  by rewrite (class_of_app _ _ Hcd).
Qed.

Lemma from_option_assoc_app (f : class_decl → bool) (c : string) :
  from_option f false (assoc c Γ) = true →
  from_option f false (assoc c (Γ ++ Δ)) = true.
Proof. apply (from_option_class_of_app f (Tclass c)). Qed.

Lemma decl_is_copy_constructible_app (T : ty) :
  decl_is_copy_constructible Γ T = true →
  decl_is_copy_constructible (Γ ++ Δ) T = true.
Proof.
  unfold decl_is_copy_constructible.
  destruct T; simpl; try done; try apply from_option_assoc_app.
  destruct (remove_cv T); simpl; try done; apply from_option_assoc_app.
Qed.

Lemma decl_is_destructible_app (T : ty) :
  decl_is_destructible Γ T = true →
  decl_is_destructible (Γ ++ Δ) T = true.
Proof.
  unfold decl_is_destructible.
  destruct T; simpl; try done; try apply from_option_assoc_app.
  destruct (remove_cv T); simpl; try done; apply from_option_assoc_app.
Qed.

Lemma decl_is_base_of_app (B D : ty) :
  decl_is_base_of Γ B D = true → decl_is_base_of (Γ ++ Δ) B D = true.
Proof.
  unfold decl_is_base_of.
  destruct B, D; simpl; try done. apply from_option_assoc_app.
Qed.

Lemma decl_nested_type_app (U : ty) (n : string) (R : ty) :
  decl_nested_type Γ U n = Some R → decl_nested_type (Γ ++ Δ) U n = Some R.
Proof.
  unfold decl_nested_type. rewrite !bind_Some.
  intros (cd & Hcd & HR). exists cd. split; [|done].
  by apply class_of_app.
Qed.

Lemma declared_app_le : env_le (declared Γ Ω) (declared (Γ ++ Δ) Ω).
Proof.
  split; simpl.
  - apply decl_is_copy_constructible_app.
  - apply decl_is_destructible_app.
  - intros A B. unfold decl_is_convertible.
    rewrite !orb_true_iff, !andb_true_iff.
    intros [[[Hs Hc] | Hc] | Hb].
    + left. left. split; [done|]. by apply decl_is_copy_constructible_app.
    + left. right. by apply from_option_class_of_app.
    + right. destruct A, B; try done. by apply decl_is_base_of_app.
  - apply decl_is_base_of_app.
  - apply decl_nested_type_app.
  - intros It C. unfold decl_iterator_category.
    destruct It; auto using decl_nested_type_app.
  - intros U f args R. unfold decl_member_call. rewrite !bind_Some.
    intros (cd & Hcd & HR). exists cd. split; [|done].
    by apply class_of_app.
  - intros C args R. unfold decl_invoke. rewrite !bind_Some.
    intros (cd & Hcd & HR). exists cd. split; [|done].
    by apply class_of_app.
  - done.
  - done.
Qed.

End more_classes.

(** * The further properties on the model classes *)

Section further_on_model.
#[local] Existing Instance model.env.
Import concept model.

(** The two sequence classes of namespace [concept] are declared as the
    header says. *)
Lemma concept_declared :
  BufferSequence_declared ConstBufferSequence const_buffer ∧
  BufferSequence_declared MutableBufferSequence mutable_buffer.
Proof. split; split; reflexivity. Qed.

Lemma concept_BufferSequence_value_witness :
  BufferSequence_declared MutableBufferSequence mutable_buffer ∧
  is_ConstBufferSequence MutableBufferSequence
  = is_convertible mutable_buffer const_buffer.
Proof.
  split; [split; reflexivity|].
  apply (concept_BufferSequence_value MutableBufferSequence
           mutable_buffer const_buffer).
  split; reflexivity.
Defined.

Lemma is_Stream_member_calls_witness :
  is_AsyncReadStream.instantiable Stream = true ∧
  is_AsyncWriteStream.instantiable Stream = true ∧
  is_Stream.value Stream = true ∧
  member_call Stream "get_io_service" [] = Some (Tlref io_service).
Proof.
  do 3 (split; [reflexivity|]).
  apply (is_Stream_member_calls Stream); reflexivity.
Defined.

Lemma is_BufferSequence_standard_category_witness :
  is_ConstBufferSequence ConstBufferSequence = true ↔
  random_access_iterator_tag = forward_iterator_tag ∨
  random_access_iterator_tag = bidirectional_iterator_tag ∨
  random_access_iterator_tag = random_access_iterator_tag.
Proof.
  apply (is_BufferSequence_standard_category ConstBufferSequence
           const_buffer (Tpointer (Tconst const_buffer))
           random_access_iterator_tag).
  - reflexivity.
  - reflexivity.
  - split; reflexivity.
  - exists const_buffer. split; reflexivity.
  - exists (Tpointer (Tconst const_buffer)), (Tpointer (Tconst const_buffer)).
    repeat split; reflexivity.
  - exists (Tpointer (Tconst const_buffer)), (Tpointer (Tconst const_buffer)).
    repeat split; reflexivity.
Defined.

Lemma is_BufferSequence_element_kind_witness :
  nested_type MutableBufferSequence "value_type" = Some mutable_buffer ∧
  is_MutableBufferSequence MutableBufferSequence = true ∧
  is_ConstBufferSequence MutableBufferSequence
  = is_convertible mutable_buffer const_buffer.
Proof.
  split; [reflexivity|]. split; [reflexivity|].
  apply (is_BufferSequence_element_kind MutableBufferSequence
           mutable_buffer const_buffer mutable_buffer); reflexivity.
Defined.

Lemma is_Streambuf_missing_member_witness :
  member_call Stream "prepare" [literal 1] = None ∧
  is_Streambuf.value Stream = false.
Proof.
  split; [reflexivity|].
  apply (is_Streambuf_missing_member Stream). left. reflexivity.
Defined.

Lemma is_Handler_reference_witness :
  remove_reference MoveOnlyHandler = MoveOnlyHandler ∧
  remove_cv MoveOnlyHandler = MoveOnlyHandler ∧
  is_copy_constructible MoveOnlyHandler = false ∧
  is_copy_constructible (Tlref MoveOnlyHandler) = true ∧
  is_Handler (Tlref MoveOnlyHandler) completion = false.
Proof.
  do 4 (split; [reflexivity|]).
  apply (is_Handler_reference MoveOnlyHandler completion); reflexivity.
Defined.

End further_on_model.

Lemma checks_monotone_witness :
  env_le model.env (declared with_timer model.commas) ∧
  @is_Stream.value model.env model.Stream = true ∧
  @is_Stream.value (declared with_timer model.commas) model.Stream = true ∧
  @has_get_io_service.value model.env (Tclass "model::Timer") = false ∧
  @has_get_io_service.value (declared with_timer model.commas) (Tclass "model::Timer")
  = true.
Proof.
  split; [apply declared_app_le|]. split; [reflexivity|].
  split; [|split; reflexivity].
  apply (checks_monotone model.env (declared with_timer model.commas)
           model.Stream concept.const_buffer model.completion).
  - apply declared_app_le.
  - reflexivity.
Defined.
